(** * redirect-to-cos: the COSRedirector class of src/index.js

    A shallow embedding of the two public methods of [COSRedirector]
    ([execCommandAndSendToCOS] and [uploadStreamToCOS]), of the three
    closures they register, and of the collaborators they call
    ([spawn], [ChildProcess.on], [createGzip], [Readable.pipe], [extend],
    [S3.upload], [EventEmitter.emit]).

    JavaScript objects are shared and mutable, so the caller's option objects
    live in a heap and are passed by reference.  Every call made to a
    collaborator is appended to a trace, in program order. *)

From Stdlib Require Import ZArith.
From stdpp Require Import base option list strings gmap.

(** ** Values *)

Definition loc := positive.   (* address of a plain object *)
Definition pid := positive.   (* identity of a ChildProcess object *)

(** Stream objects.  They are compared by identity only. *)
Inductive stream :=
| Stdout (child : pid)   (* the [stdout] property of a ChildProcess *)
| Gzip (n : nat)         (* the n-th object returned by [createGzip()] *)
| Readable (n : nat).    (* any other readable stream held by a caller *)

(** A plain object is a finite map from property names to values, reached
    through its address. *)
Inductive value :=
| VUndefined
| VNull
| VBool (b : bool)
| VNum (n : Z)
| VNaN
| VStr (s : string)
| VObj (l : loc)
| VStream (s : stream).

Global Instance stream_eq_dec : EqDecision stream.
Proof. solve_decision. Defined.

Global Instance value_eq_dec : EqDecision value.
Proof. solve_decision. Defined.

(** JavaScript truthiness ([c ? a : b]); the numbers are the integers and
    NaN. *)
Definition truthy (v : value) : bool :=
  match v with
  | VUndefined | VNull | VNaN => false
  | VBool b => b
  | VNum n => negb (n =? 0)%Z
  | VStr s => negb (String.eqb s "")
  | VObj _ | VStream _ => true
  end.

(** [v != null]: the loose comparison, under which [undefined] equals
    [null] and nothing else does. *)
Definition loose_neq_null (v : value) : bool :=
  match v with
  | VUndefined | VNull => false
  | _ => true
  end.

(** A default parameter [p = d]: the default is taken when the argument is
    omitted or is [undefined]. *)
Definition default_param (arg d : value) : value :=
  match arg with
  | VUndefined => d
  | _ => arg
  end.

(** ** The world *)

(** The three closures of index.js, each capturing only [self]. *)
Inductive listener :=
| ExitListener     (* (code) => { self.emit('command_exit', code) } *)
| ErrorListener.   (* (err) => { self.emit('command_init_error', err) } *)

Inductive callback :=
| UploadCallback.  (* function(err, data) { ... } of uploadStreamToCOS *)

(** Calls to the collaborators, as they are made. *)
Inductive effect :=
| Spawn (command : string) (args : list string) (child : pid)
| CreateGzip (g : stream)
| Pipe (src : stream) (dst : value)
| Upload (params options : value) (cb : callback)
| Emit (signal : string) (payload : value).

Global Instance listener_eq_dec : EqDecision listener.
Proof. solve_decision. Defined.

Global Instance callback_eq_dec : EqDecision callback.
Proof. solve_decision. Defined.

Global Instance effect_eq_dec : EqDecision effect.
Proof. solve_decision. Defined.

Record world := World {
  heap : gmap loc (gmap string value);             (* plain objects *)
  children : gmap pid (list (string * listener));  (* listeners of each child *)
  gzips : nat;                                     (* transforms created *)
  trace : list effect                              (* oldest call first *)
}.

Definition log (e : effect) (w : world) : world :=
  World (heap w) (children w) (gzips w) (trace w ++ [e]).

Definition set_heap (h : gmap loc (gmap string value)) (w : world) : world :=
  World h (children w) (gzips w) (trace w).

(** ** A state monad over the world *)

Definition M (A : Type) : Type := world -> A * world.

Definition ret {A} (a : A) : M A := fun w => (a, w).

Definition bind {A B} (m : M A) (k : A -> M B) : M B :=
  fun w => let (a, w') := m w in k a w'.

Notation "x <- m ;; k" := (bind m (fun x => k))
  (at level 100, m at next level, right associativity).
Notation "m ;;; k" := (bind m (fun _ => k))
  (at level 100, right associativity).

Definition exec {A} (m : M A) (w : world) : world := snd (m w).

(** ** Collaborators *)

(** A call to a collaborator returns a value or throws. *)
Inductive result (A : Type) :=
| Returns (a : A)
| Throws (err : value).

Arguments Returns {A} a.
Arguments Throws {A} err.

(** What the promise of an async method settles to. *)
Inductive promise :=
| Fulfilled
| Rejected (reason : value).

Fixpoint has_NUL (s : string) : bool :=
  match s with
  | EmptyString => false
  | String a s' => Ascii.eqb a Ascii.zero || has_NUL s'
  end.

(** [spawn] checks its arguments before it creates anything: the command is
    not the empty string, and neither the command nor an argument holds a
    NUL character. *)
Definition spawn_accepts (command : string) (args : list string) : bool :=
  negb (String.eqb command "") && negb (has_NUL command)
  && forallb (fun a => negb (has_NUL a)) args.

(** [spawn(command, args)] of child_process.  On arguments it accepts it
    creates a new ChildProcess object, with no listener yet, and returns it
    at once (a command that cannot be run is reported later, by the 'error'
    event).  On arguments it refuses it throws a TypeError, with code
    ERR_INVALID_ARG_VALUE, and creates nothing. *)
Definition spawn (command : string) (args : list string) : M (result pid) :=
  fun w =>
    if spawn_accepts command args then
      let c := fresh (dom (children w)) in
      (Returns c,
       log (Spawn command args c)
         (World (heap w) (<[c := []]> (children w)) (gzips w) (trace w)))
    else (Throws (VStr "ERR_INVALID_ARG_VALUE"), w).

(** [child.on(event, l)]: appends [l] to the listeners of [child]. *)
Definition on (child : pid) (event : string) (l : listener) : M unit :=
  fun w =>
    let ls := default [] (children w !! child) in
    (tt, World (heap w) (<[child := ls ++ [(event, l)]]> (children w))
           (gzips w) (trace w)).

(** [createGzip()] of zlib: a new transform stream. *)
Definition createGzip : M value :=
  fun w =>
    let g := Gzip (gzips w) in
    (VStream g, log (CreateGzip g)
                  (World (heap w) (children w) (S (gzips w)) (trace w))).

(** [src.pipe(dst)]: connects [src] to [dst] and returns [dst]. *)
Definition pipe (src : stream) (dst : value) : M value :=
  fun w => (dst, log (Pipe src dst) w).

(** [self.emit(signal, payload)] of EventEmitter. *)
Definition emit (signal : string) (payload : value) : M unit :=
  fun w => (tt, log (Emit signal payload) w).

(** [this.s3Conn.upload(params, options, cb)]: the call is handed to the
    storage client, which runs [cb] later. *)
Definition s3Conn_upload (params options : value) (cb : callback) : M unit :=
  fun w => (tt, log (Upload params options cb) w).

(** [target[name] = v]. *)
Definition setProperty (t : loc) (name : string) (v : value)
    (h : gmap loc (gmap string value)) : gmap loc (gmap string value) :=
  <[t := <[name := v]> (default ∅ (h !! t))]> h.

(** One turn of the loop [for (name in options)] of [extend], [deep] being
    false: [copy] is written to [target[name]] unless it is the target
    itself or is [undefined]. *)
Definition extend_step (t : loc) (h : gmap loc (gmap string value))
    (p : string * value) : gmap loc (gmap string value) :=
  let (name, copy) := p in
  if bool_decide (copy = VObj t) then h
  else if bool_decide (copy = VUndefined) then h
  else setProperty t name copy h.

(** [extend(false, target, options)] of the npm package extend (the port of
    jQuery.extend that index.js requires).  The first object after the
    boolean is the target: it is the object that is written to and returned.
    A missing target ([arguments[1] || {}]) is replaced by a new empty
    object.  [options] is an object literal at both call sites; it is given
    by its properties in the order written. *)
Definition extend (target : option loc) (options : list (string * value))
    : M value :=
  fun w =>
    let '(t, h) :=
      match target with
      | Some l => (l, heap w)
      | None => let l := fresh (dom (heap w)) in (l, <[l := ∅]> (heap w))
      end in
    (VObj t, set_heap (foldl (extend_step t) h options) w).

(** ** COSRedirector *)

(** The completion callback of lines 100-106. *)
Definition upload_callback (err data : value) : M unit :=
  if loose_neq_null err then emit "upload_error" err
  else emit "upload_finish" data.

Definition run_callback (cb : callback) (err data : value) : M unit :=
  match cb with
  | UploadCallback => upload_callback err data
  end.

(** [uploadStreamToCOS(stream, bucket_options, transfer_options,
    compressed=false)], lines 93-107.  The two option arguments are
    references to the caller's objects, [None] when the caller gives none. *)
Definition uploadStreamToCOS (stream : stream)
    (bucket_options transfer_options : option loc) (compressed : value)
    : M unit :=
  let compressed := default_param compressed (VBool false) in
  gzip <- (if truthy compressed then createGzip else ret VNull) ;;
  readStream <- (if truthy compressed then pipe stream gzip
                 else ret (VStream stream)) ;;
  params <- extend bucket_options [("Body", readStream)] ;;
  options <- extend transfer_options
               [("partSize", VNum (10 * 1024 * 1024));
                ("queueSize", VNum 10)] ;;
  s3Conn_upload params options UploadCallback.

(** [execCommandAndSendToCOS(command, args, bucket_options,
    transfer_options, compressed=false)], lines 53-66.  The body has no
    [await]: it runs to its end within the call.  The method is async: when
    [spawn] throws, the rest of the body is skipped and the promise the call
    returns is rejected with what was thrown. *)
Definition execCommandAndSendToCOS (command : string) (args : list string)
    (bucket_options transfer_options : option loc) (compressed : value)
    : M promise :=
  let compressed := default_param compressed (VBool false) in
  spawned <- spawn command args ;;
  match spawned with
  | Throws err => ret (Rejected err)
  | Returns child_process =>
      on child_process "exit" ExitListener ;;;
      on child_process "error" ErrorListener ;;;
      uploadStreamToCOS (Stdout child_process) bucket_options
        transfer_options compressed ;;;
      ret Fulfilled
  end.

(** ** The environment calling back *)

(** A listener receives the arguments of the event; both listeners of
    index.js read the first one only. *)
Definition run_listener (l : listener) (args : list value) : M unit :=
  let arg := nth 0 args VUndefined in
  match l with
  | ExitListener => emit "command_exit" arg
  | ErrorListener => emit "command_init_error" arg
  end.

Fixpoint run_listeners (event : string) (ls : list (string * listener))
    (args : list value) : M unit :=
  match ls with
  | [] => ret tt
  | (ev, l) :: ls' =>
      (if String.eqb ev event then run_listener l args else ret tt) ;;;
      run_listeners event ls' args
  end.

(** [child.emit(event, ...args)], done by the runtime: the listeners
    registered for [event] run in the order they were registered. *)
Definition child_emit (child : pid) (event : string) (args : list value)
    : M unit :=
  fun w => run_listeners event (default [] (children w !! child)) args w.

(** The lifecycle events of a ChildProcess that index.js listens to. *)
Inductive lifecycle :=
| Exited (code signal : value)   (* 'exit', with (code, signal) *)
| Failed (err : value).          (* 'error', with (err) *)

Definition deliver (child : pid) (ev : lifecycle) : M unit :=
  match ev with
  | Exited code signal => child_emit child "exit" [code; signal]
  | Failed err => child_emit child "error" [err]
  end.

Fixpoint deliver_all (child : pid) (evs : list lifecycle) : M unit :=
  match evs with
  | [] => ret tt
  | ev :: evs' => deliver child ev ;;; deliver_all child evs'
  end.

(** ** Observations *)

(** The property [name] of the object [v] refers to, if it has one. *)
Definition field (w : world) (v : value) (name : string) : option value :=
  match v with
  | VObj l => heap w !! l ≫= (.!! name)
  | _ => None
  end.

(** The signals emitted on the redirector, oldest first. *)
Definition signals (w : world) : list (string * value) :=
  omap (fun e => match e with Emit s p => Some (s, p) | _ => None end)
       (trace w).

(** The last call to the storage client. *)
Definition last_upload (w : world) : option (value * value * callback) :=
  last (omap (fun e => match e with
                       | Upload p o cb => Some (p, o, cb)
                       | _ => None
                       end) (trace w)).

(** What a run of [m] from [w] adds to the signals of [w]. *)
Definition emitted {A} (m : M A) (w : world) : list (string * value) :=
  drop (length (signals w)) (signals (exec m w)).

(** How many times the signal [name] occurs in a list of signals. *)
Definition fired (name : string) (sigs : list (string * value)) : nat :=
  length (filter (fun p => p.1 = name) sigs).

(** The property [name] of a caller's object, if the caller gave the object
    and the object has the property. *)
Definition caller_field (w : world) (o : option loc) (name : string)
    : option value :=
  o ≫= fun l => field w (VObj l) name.

(** ** The methods line by line *)

(** The object [extend] writes to, and the heap it leaves. *)
Definition extend_target (target : option loc)
    (h : gmap loc (gmap string value)) : loc :=
  match target with
  | Some l => l
  | None => fresh (dom h)
  end.

Definition extend_heap (target : option loc) (options : list (string * value))
    (h : gmap loc (gmap string value)) : gmap loc (gmap string value) :=
  foldl (extend_step (extend_target target h))
        (match target with
         | Some _ => h
         | None => <[fresh (dom h) := ∅]> h
         end) options.

(** The value bound to [readStream] on line 96. *)
Definition readStream_of (stream : stream) (compressed : value) (w : world)
    : value :=
  if truthy (default_param compressed (VBool false))
  then VStream (Gzip (gzips w))
  else VStream stream.

(** The calls lines 94-96 make. *)
Definition gzip_calls (stream : stream) (compressed : value) (w : world)
    : list effect :=
  if truthy (default_param compressed (VBool false))
  then [CreateGzip (Gzip (gzips w));
        Pipe stream (VStream (Gzip (gzips w)))]
  else [].

(** The literal of line 98. *)
Definition defaults : list (string * value) :=
  [("partSize", VNum (10 * 1024 * 1024)); ("queueSize", VNum 10)].

(** The heap once line 97 has run, and the object bound to [params]. *)
Definition heap_97 (stream : stream) (bucket_options : option loc)
    (compressed : value) (w : world) : gmap loc (gmap string value) :=
  extend_heap bucket_options
    [("Body", readStream_of stream compressed w)] (heap w).

Definition params_97 (bucket_options : option loc) (w : world) : loc :=
  extend_target bucket_options (heap w).

(** The heap once line 98 has run, and the object bound to [options]. *)
Definition heap_98 (stream : stream)
    (bucket_options transfer_options : option loc) (compressed : value)
    (w : world) : gmap loc (gmap string value) :=
  extend_heap transfer_options defaults
    (heap_97 stream bucket_options compressed w).

Definition options_98 (stream : stream)
    (bucket_options transfer_options : option loc) (compressed : value)
    (w : world) : loc :=
  extend_target transfer_options (heap_97 stream bucket_options compressed w).

(** The call of line 100. *)
Definition upload_call (stream : stream)
    (bucket_options transfer_options : option loc) (compressed : value)
    (w : world) : effect :=
  Upload (VObj (params_97 bucket_options w))
         (VObj (options_98 stream bucket_options transfer_options compressed
                  w))
         UploadCallback.

(** The ChildProcess object that line 56 binds to [child_process]. *)
Definition child_56 (w : world) : pid := fresh (dom (children w)).

(** The world when line 65 is reached. *)
Definition world_65 (command : string) (args : list string) (w : world)
    : world :=
  World (heap w)
    (<[child_56 w := [("exit", ExitListener); ("error", ErrorListener)]]>
       (children w))
    (gzips w)
    (trace w ++ [Spawn command args (child_56 w)]).

(** What the listeners of lines 57-63 turn a lifecycle event into. *)
Definition forwarded (ev : lifecycle) : string * value :=
  match ev with
  | Exited code _ => ("command_exit", code)
  | Failed err => ("command_init_error", err)
  end.

(** ** The statements of the specification *)

(** The caller overrides neither default. *)
Definition no_overrides (w : world) (transfer_options : option loc) : Prop :=
  caller_field w transfer_options "partSize" = None
  ∧ caller_field w transfer_options "queueSize" = None.

(** The shallow merge the specification describes: a property of the
    caller's object wins over the default of the same name. *)
Definition spec_merge (w : world) (transfer_options : option loc)
    (name : string) : option value :=
  match caller_field w transfer_options name with
  | Some v => Some v
  | None => (list_to_map defaults : gmap string value) !! name
  end.

(** The caller's object [o] is in [w'] what it was in [w]. *)
Definition unchanged (w w' : world) (o : option loc) : Prop :=
  ∀ l, o = Some l → heap w' !! l = heap w !! l.

(** "The Bucket Target and the Transfer Configuration are not mutated by the
    upload operation." *)
Definition options_not_mutated (stream : stream)
    (bucket_options transfer_options : option loc) (compressed : value)
    (w : world) : Prop :=
  let w' := exec (uploadStreamToCOS stream bucket_options transfer_options
                    compressed) w in
  unchanged w w' bucket_options ∧ unchanged w w' transfer_options.

(** The number of command_exit and command_init_error signals in [sigs]. *)
Definition lifecycle_signals (sigs : list (string * value)) : nat :=
  fired "command_exit" sigs + fired "command_init_error" sigs.

(** "Exactly one of command_exit and command_init_error fires", for a run
    of [execCommandAndSendToCOS] whose child process delivers the lifecycle
    events [evs]. *)
Definition exactly_one_lifecycle_signal (command : string)
    (args : list string) (bucket_options transfer_options : option loc)
    (compressed : value) (w : world) (evs : list lifecycle) : Prop :=
  lifecycle_signals
    (emitted (deliver_all (child_56 w) evs)
       (exec (execCommandAndSendToCOS command args bucket_options
                transfer_options compressed) w)) = 1.

(** ** Sample worlds *)

(** The objects of the usage example of README.md:
    [{Bucket: 'test-backups', Key: 'pg_dump.bkp.gz'}] and
    [{partSize: 20 * 1024 * 1024, queueSize: 20}]. *)
Definition readme_bucket_options : gmap string value :=
  <["Bucket" := VStr "test-backups"]> (<["Key" := VStr "pg_dump.bkp.gz"]> ∅).

Definition readme_transfer_options : gmap string value :=
  <["partSize" := VNum (20 * 1024 * 1024)]> (<["queueSize" := VNum 20]> ∅).

Definition readme_world : world :=
  World
    (<[1%positive := readme_bucket_options]>
       (<[2%positive := readme_transfer_options]> ∅))
    ∅ 0 [].

(** A heap holding the one object [{Bucket: 'b', Key: 'k'}]. *)
Definition scenario_world : world :=
  World (<[1%positive := <["Bucket" := VStr "b"]> (<["Key" := VStr "k"]> ∅)]> ∅)
    ∅ 0 [].

(** ** Further observations *)

(** Every call made to the storage client, oldest first. *)
Definition upload_calls (w : world) : list (value * value * callback) :=
  omap (fun e => match e with
                 | Upload p o cb => Some (p, o, cb)
                 | _ => None
                 end) (trace w).

(** The object the literal of line 98 describes. *)
Definition defaults_object : gmap string value :=
  <["queueSize" := VNum 10]> (<["partSize" := VNum (10 * 1024 * 1024)]> ∅).

(** [compressed ? ... : ...] once the default of the parameter is taken. *)
Definition compresses (compressed : value) : bool :=
  truthy (default_param compressed (VBool false)).

(** The pipes set up by the calls [es], as (source, destination). *)
Definition pipes (es : list effect) : list (stream * value) :=
  omap (fun e => match e with Pipe s d => Some (s, d) | _ => None end) es.

(** The calls a run of [m] from [w] makes. *)
Definition calls {A} (m : M A) (w : world) : list effect :=
  drop (length (trace w)) (trace (exec m w)).

(** What the environment does after a call of [execCommandAndSendToCOS]:
    the child process delivers a lifecycle event, or the storage client runs
    the completion callback. *)
Inductive happening :=
| ChildEvent (ev : lifecycle)
| Completion (err data : value).

Definition happen (child : pid) (x : happening) : M unit :=
  match x with
  | ChildEvent ev => deliver child ev
  | Completion err data => run_callback UploadCallback err data
  end.

Fixpoint happen_all (child : pid) (xs : list happening) : M unit :=
  match xs with
  | [] => ret tt
  | x :: xs' => happen child x ;;; happen_all child xs'
  end.

(** The signal the closures of index.js answer a happening with. *)
Definition signal_of (x : happening) : string * value :=
  match x with
  | ChildEvent ev => forwarded ev
  | Completion err data =>
      if loose_neq_null err then ("upload_error", err)
      else ("upload_finish", data)
  end.

Definition is_completion (x : happening) : bool :=
  match x with
  | ChildEvent _ => false
  | Completion _ _ => true
  end.


(** * Properties *)

(** Solves [k ∉ names] for an explicit list of property names. *)
Ltac not_named :=
  unfold defaults; simpl; rewrite ?not_elem_of_cons;
  repeat split; (done || apply not_elem_of_nil).

(** ** [extend] *)

Section Extend.

Implicit Types (h : gmap loc (gmap string value)) (t l : loc).

Lemma extend_spec target options w :
  extend target options w =
  (VObj (extend_target target (heap w)),
   set_heap (extend_heap target options (heap w)) w).
Proof. by destruct target. Qed.

Lemma setProperty_same t name v h :
  setProperty t name v h !! t = Some (<[name := v]> (default ∅ (h !! t))).
Proof. unfold setProperty. by rewrite lookup_insert_eq. Qed.

Lemma setProperty_other t l name v h :
  t ≠ l → setProperty t name v h !! l = h !! l.
Proof. intros. unfold setProperty. by rewrite lookup_insert_ne. Qed.

(** [extend] writes to its target only. *)
Lemma extend_step_other t l h p :
  t ≠ l → extend_step t h p !! l = h !! l.
Proof.
  intros Hne. destruct p as [name copy]. unfold extend_step.
  repeat case_bool_decide; auto using setProperty_other.
Qed.

Lemma foldl_extend_step_other t l options :
  t ≠ l → ∀ h, foldl (extend_step t) h options !! l = h !! l.
Proof.
  intros Hne. induction options as [|p ps IH]; intros h; simpl; [done|].
  by rewrite IH, extend_step_other.
Qed.

(** Properties that [options] does not name keep their value. *)
Lemma extend_step_keeps t h p k :
  p.1 ≠ k →
  default ∅ (extend_step t h p !! t) !! k = default ∅ (h !! t) !! k.
Proof.
  destruct p as [name copy]. simpl. intros Hne. unfold extend_step.
  repeat case_bool_decide; try done.
  rewrite setProperty_same. simpl. by rewrite lookup_insert_ne.
Qed.

Lemma foldl_extend_step_keeps t options k :
  k ∉ options.*1 →
  ∀ h, default ∅ (foldl (extend_step t) h options !! t) !! k
       = default ∅ (h !! t) !! k.
Proof.
  induction options as [|p ps IH]; intros Hk h; simpl; [done|].
  rewrite fmap_cons in Hk. apply not_elem_of_cons in Hk as [Hp Hps].
  rewrite IH by done. apply extend_step_keeps. congruence.
Qed.

Lemma field_lookup w l k :
  field w (VObj l) k = default ∅ (heap w !! l) !! k.
Proof. simpl. by destruct (heap w !! l). Qed.

Lemma fresh_lookup h : h !! fresh (dom h) = None.
Proof. apply not_elem_of_dom, is_fresh. Qed.

(** Objects other than the target are left as they are. *)
Lemma extend_heap_other target options h l :
  l ≠ extend_target target h →
  extend_heap target options h !! l = h !! l.
Proof.
  intros Hne. unfold extend_heap.
  rewrite foldl_extend_step_other by done.
  destruct target; [done|]. by rewrite lookup_insert_ne.
Qed.

(** A property that [options] does not name is left as it is, in every
    object. *)
Lemma extend_heap_keeps target options h l k :
  k ∉ options.*1 →
  default ∅ (extend_heap target options h !! l) !! k
  = default ∅ (h !! l) !! k.
Proof.
  intros Hk. destruct (decide (l = extend_target target h)) as [->|Hne].
  - unfold extend_heap. rewrite foldl_extend_step_keeps by done.
    destruct target; simpl; [done|].
    by rewrite lookup_insert_eq, fresh_lookup.
  - by rewrite extend_heap_other.
Qed.

(** A one-property literal holding neither the target nor [undefined]:
    the property is written to the target. *)
Lemma extend_heap_writes target name v h :
  v ≠ VObj (extend_target target h) → v ≠ VUndefined →
  extend_heap target [(name, v)] h !! extend_target target h
  = Some (<[name := v]> (default ∅ (h !! extend_target target h))).
Proof.
  intros Hobj Hundef. unfold extend_heap. simpl.
  rewrite !bool_decide_eq_false_2 by done.
  rewrite setProperty_same. destruct target; simpl; [done|].
  by rewrite lookup_insert_eq, fresh_lookup.
Qed.

(** The literal of line 98: both properties are written to the target, over
    whatever it held under these names. *)
Lemma extend_heap_defaults target h :
  extend_heap target defaults h !! extend_target target h
  = Some (<["queueSize" := VNum 10]>
            (<["partSize" := VNum (10 * 1024 * 1024)]>
               (default ∅ (h !! extend_target target h)))).
Proof.
  unfold extend_heap, defaults. simpl.
  rewrite setProperty_same, setProperty_same. simpl.
  destruct target; simpl; [done|].
  by rewrite lookup_insert_eq, fresh_lookup.
Qed.

End Extend.

(** ** [uploadStreamToCOS] *)

Section Upload.

Variables (stream : stream) (bucket_options transfer_options : option loc).
Variables (compressed : value) (w : world).

Local Abbreviation w' :=
  (exec (uploadStreamToCOS stream bucket_options transfer_options compressed)
        w).
Local Abbreviation rs := (readStream_of stream compressed w).
Local Abbreviation params := (params_97 bucket_options w).
Local Abbreviation options :=
  (options_98 stream bucket_options transfer_options compressed w).

(** The world [uploadStreamToCOS] leaves, in closed form. *)
Lemma uploadStreamToCOS_spec :
  w' = World (heap_98 stream bucket_options transfer_options compressed w)
         (children w)
         (if truthy (default_param compressed (VBool false))
          then S (gzips w) else gzips w)
         (trace w ++ gzip_calls stream compressed w
          ++ [upload_call stream bucket_options transfer_options compressed
                w]).
Proof.
  unfold exec, uploadStreamToCOS, bind, upload_call, heap_98, options_98,
    heap_97, params_97, readStream_of, gzip_calls.
  destruct (truthy (default_param compressed (VBool false))); simpl;
    rewrite !extend_spec; simpl; unfold log, set_heap; simpl;
    by rewrite <- ?app_assoc.
Qed.

Lemma uploadStreamToCOS_heap :
  heap w' = heap_98 stream bucket_options transfer_options compressed w.
Proof. by rewrite uploadStreamToCOS_spec. Qed.

Lemma uploadStreamToCOS_trace :
  trace w' = trace w ++ gzip_calls stream compressed w
             ++ [upload_call stream bucket_options transfer_options
                   compressed w].
Proof. by rewrite uploadStreamToCOS_spec. Qed.

Lemma uploadStreamToCOS_children : children w' = children w.
Proof. by rewrite uploadStreamToCOS_spec. Qed.

(** The call to the storage client is the last call made. *)
Lemma uploadStreamToCOS_last_upload :
  last_upload w' = Some (VObj params, VObj options, UploadCallback).
Proof.
  unfold last_upload. rewrite uploadStreamToCOS_trace, app_assoc, omap_app.
  simpl. by rewrite last_snoc.
Qed.

(** No signal is emitted before the storage client calls back. *)
Lemma uploadStreamToCOS_signals : signals w' = signals w.
Proof.
  unfold signals. rewrite uploadStreamToCOS_trace, !omap_app. simpl.
  unfold gzip_calls.
  destruct (truthy (default_param compressed (VBool false))); simpl;
    by rewrite app_nil_r.
Qed.

Lemma readStream_is_stream : ∃ s, rs = VStream s.
Proof.
  unfold readStream_of.
  destruct (truthy (default_param compressed (VBool false))); eauto.
Qed.

Lemma heap_97_params :
  heap_97 stream bucket_options compressed w !! params
  = Some (<["Body" := rs]> (default ∅ (heap w !! params))).
Proof.
  destruct readStream_is_stream as [s Hs].
  unfold heap_97, params_97.
  apply extend_heap_writes; rewrite Hs; done.
Qed.

(** Line 98 always leaves the two defaults in the object bound to
    [options], whatever the caller's object held. *)
Lemma options_hold_defaults :
  field w' (VObj options) "partSize" = Some (VNum (10 * 1024 * 1024))
  ∧ field w' (VObj options) "queueSize" = Some (VNum 10).
Proof.
  rewrite !field_lookup, uploadStreamToCOS_heap.
  unfold heap_98, options_98. rewrite extend_heap_defaults.
  simpl. split; [|by rewrite lookup_insert_eq].
  by rewrite lookup_insert_ne, lookup_insert_eq.
Qed.

(** Line 97 leaves [readStream] in the property Body of the object bound
    to [params], and line 98 does not touch it. *)
Lemma params_hold_Body : field w' (VObj params) "Body" = Some rs.
Proof.
  rewrite field_lookup, uploadStreamToCOS_heap.
  unfold heap_98. rewrite extend_heap_keeps by not_named.
  rewrite heap_97_params. simpl. by rewrite lookup_insert_eq.
Qed.

(** No property other than Body, partSize and queueSize is written, in any
    object. *)
Lemma other_fields_kept l k :
  k ≠ "Body" → k ≠ "partSize" → k ≠ "queueSize" →
  field w' (VObj l) k = field w (VObj l) k.
Proof.
  intros HB HP HQ. rewrite !field_lookup, uploadStreamToCOS_heap.
  unfold heap_98, heap_97. by rewrite !extend_heap_keeps by not_named.
Qed.

(** Line 97 writes Body and nothing else. *)
Lemma heap_97_keeps l k :
  k ≠ "Body" →
  default ∅ (heap_97 stream bucket_options compressed w !! l) !! k
  = default ∅ (heap w !! l) !! k.
Proof. intros. unfold heap_97. by rewrite extend_heap_keeps by not_named. Qed.

End Upload.

(** ** [execCommandAndSendToCOS] *)

Section Run.

Variables (command : string) (args : list string).
Variables (bucket_options transfer_options : option loc).
Variables (compressed : value) (w : world).

Lemma default_param_idem v :
  default_param (default_param v (VBool false)) (VBool false)
  = default_param v (VBool false).
Proof. by destruct v. Qed.

(** Line 65 passes on a [compressed] that line 53 has defaulted already;
    defaulting it again on line 93 changes nothing. *)
Lemma uploadStreamToCOS_default stream :
  uploadStreamToCOS stream bucket_options transfer_options
    (default_param compressed (VBool false))
  = uploadStreamToCOS stream bucket_options transfer_options compressed.
Proof. unfold uploadStreamToCOS. by rewrite default_param_idem. Qed.

(** When [spawn] accepts the arguments, [execCommandAndSendToCOS] is
    [uploadStreamToCOS] on the standard output of the child, run in the
    world that lines 56-63 leave, and its promise is fulfilled. *)
Lemma execCommandAndSendToCOS_run :
  spawn_accepts command args = true →
  execCommandAndSendToCOS command args bucket_options transfer_options
    compressed w
  = (Fulfilled,
     exec (uploadStreamToCOS (Stdout (child_56 w)) bucket_options
             transfer_options compressed) (world_65 command args w)).
Proof.
  intros Hok.
  unfold exec, execCommandAndSendToCOS, bind, spawn, on, log, ret.
  rewrite Hok. simpl. fold (child_56 w). rewrite !lookup_insert_eq. simpl.
  rewrite !insert_insert_eq, uploadStreamToCOS_default.
  fold (world_65 command args w).
  by destruct (uploadStreamToCOS _ _ _ _ _).
Qed.

Lemma execCommandAndSendToCOS_spec :
  spawn_accepts command args = true →
  exec (execCommandAndSendToCOS command args bucket_options
          transfer_options compressed) w
  = exec (uploadStreamToCOS (Stdout (child_56 w)) bucket_options
            transfer_options compressed) (world_65 command args w).
Proof.
  intros Hok. unfold exec at 1. by rewrite execCommandAndSendToCOS_run.
Qed.

(** When [spawn] refuses the arguments, nothing else happens: the promise
    is rejected and the world is what it was. *)
Lemma execCommandAndSendToCOS_refused :
  spawn_accepts command args = false →
  execCommandAndSendToCOS command args bucket_options transfer_options
    compressed w
  = (Rejected (VStr "ERR_INVALID_ARG_VALUE"), w).
Proof.
  intros Hno. unfold execCommandAndSendToCOS, bind, spawn, ret.
  by rewrite Hno.
Qed.

Lemma execCommandAndSendToCOS_children :
  spawn_accepts command args = true →
  children (exec (execCommandAndSendToCOS command args bucket_options
                    transfer_options compressed) w) !! child_56 w
  = Some [("exit", ExitListener); ("error", ErrorListener)].
Proof.
  intros Hok.
  rewrite execCommandAndSendToCOS_spec, uploadStreamToCOS_children by done.
  apply lookup_insert_eq.
Qed.

(** A child that was not spawned has no listener. *)
Lemma execCommandAndSendToCOS_no_child :
  spawn_accepts command args = false →
  children (exec (execCommandAndSendToCOS command args bucket_options
                    transfer_options compressed) w) !! child_56 w
  = None.
Proof.
  intros Hno. unfold exec. rewrite execCommandAndSendToCOS_refused by done.
  simpl. apply not_elem_of_dom. apply (is_fresh (dom (children w))).
Qed.

End Run.

(** ** Signals *)

Section Signals.

Lemma signals_app w w' es :
  trace w' = trace w ++ es →
  signals w' = signals w
               ++ omap (fun e => match e with
                                 | Emit s p => Some (s, p)
                                 | _ => None
                                 end) es.
Proof. intros H. unfold signals. by rewrite H, omap_app. Qed.

Lemma emitted_app {A} (m : M A) w sigs :
  signals (exec m w) = signals w ++ sigs → emitted m w = sigs.
Proof. intros H. unfold emitted. by rewrite H, drop_app_length. Qed.

Lemma emitted_log_Emit {A} (m : M A) s p w :
  exec m w = log (Emit s p) w → emitted m w = [(s, p)].
Proof.
  intros H. apply emitted_app. rewrite H.
  by rewrite (signals_app w _ [Emit s p]).
Qed.

(** The callback emits one signal and nothing else happens. *)
Lemma upload_callback_spec err data w :
  exec (upload_callback err data) w
  = log (if loose_neq_null err then Emit "upload_error" err
         else Emit "upload_finish" data) w.
Proof. unfold upload_callback. by destruct (loose_neq_null err). Qed.

Lemma deliver_spec child ev w :
  children w !! child
  = Some [("exit", ExitListener); ("error", ErrorListener)] →
  exec (deliver child ev) w = log (Emit (forwarded ev).1 (forwarded ev).2) w.
Proof.
  intros H. destruct ev; unfold exec, deliver, child_emit; by rewrite H.
Qed.

Lemma deliver_all_spec child evs :
  ∀ w,
  children w !! child
  = Some [("exit", ExitListener); ("error", ErrorListener)] →
  exec (deliver_all child evs) w
  = World (heap w) (children w) (gzips w)
      (trace w ++ map (fun ev => Emit (forwarded ev).1 (forwarded ev).2) evs).
Proof.
  induction evs as [|ev evs IH]; intros w H; simpl.
  - unfold exec, ret. simpl. rewrite app_nil_r. by destruct w.
  - unfold exec, bind.
    pose proof (deliver_spec child ev w H) as Hd. unfold exec in Hd.
    destruct (deliver child ev w) as [u w1]. simpl in Hd. subst w1.
    specialize (IH (log (Emit (forwarded ev).1 (forwarded ev).2) w) H).
    unfold exec in IH. rewrite IH. simpl. by rewrite <- app_assoc.
Qed.

Lemma emitted_deliver_all child evs w :
  children w !! child
  = Some [("exit", ExitListener); ("error", ErrorListener)] →
  emitted (deliver_all child evs) w = map forwarded evs.
Proof.
  intros H. apply emitted_app.
  erewrite signals_app; [|by rewrite deliver_all_spec]. f_equal.
  induction evs as [|ev evs IH]; [done|].
  destruct ev; simpl; f_equal; exact IH.
Qed.

Lemma emitted_deliver child ev w :
  children w !! child
  = Some [("exit", ExitListener); ("error", ErrorListener)] →
  emitted (deliver child ev) w = [forwarded ev].
Proof.
  intros H. destruct ev; by apply emitted_log_Emit, deliver_spec.
Qed.

(** A child that has no listener forwards nothing. *)
Lemma deliver_no_child child ev w :
  children w !! child = None → exec (deliver child ev) w = w.
Proof.
  intros H. destruct ev; unfold exec, deliver, child_emit; by rewrite H.
Qed.

Lemma deliver_all_no_child child evs w :
  children w !! child = None → exec (deliver_all child evs) w = w.
Proof.
  intros H. induction evs as [|ev evs IH]; [done|].
  simpl deliver_all. unfold exec, bind.
  pose proof (deliver_no_child child ev w H) as Hd. unfold exec in Hd.
  destruct (deliver child ev w) as [u w1]. simpl in Hd. subst w1. exact IH.
Qed.

Lemma emitted_unchanged {A} (m : M A) w : exec m w = w → emitted m w = [].
Proof.
  intros H. apply emitted_app. by rewrite H, app_nil_r.
Qed.

Lemma emitted_no_child child ev w :
  children w !! child = None → emitted (deliver child ev) w = [].
Proof. intros H. by apply emitted_unchanged, deliver_no_child. Qed.

Lemma emitted_deliver_all_no_child child evs w :
  children w !! child = None → emitted (deliver_all child evs) w = [].
Proof. intros H. by apply emitted_unchanged, deliver_all_no_child. Qed.

(** Each lifecycle event is forwarded as one lifecycle signal. *)
Lemma lifecycle_signals_forwarded evs :
  lifecycle_signals (map forwarded evs) = length evs.
Proof.
  unfold lifecycle_signals, fired.
  induction evs as [|ev evs IH]; [done|].
  destruct ev; simpl in *; rewrite ?filter_cons; simpl;
    repeat case_decide; try done; simpl; lia.
Qed.

End Signals.

(** * The claims of the specification *)

Section Claims.

Implicit Types (stream : stream) (b t : option loc) (c : value) (w : world).

(** C1 (the code departs from it).  The specification lets a transfer
    configuration that holds partSize or queueSize override the defaults.
    On the transfer options of the usage example of README.md,
    [{partSize: 20 * 1024 * 1024, queueSize: 20}], the options forwarded to
    the managed upload hold partSize = 10485760 and queueSize = 10: line 98
    gives the caller's object to [extend] as the target, so the defaults are
    written over the caller's values. *)
Theorem C1_readme_overrides_are_overwritten :
  let w' := exec (uploadStreamToCOS (Readable 0) (Some 1%positive)
                    (Some 2%positive) (VBool true)) readme_world in
  caller_field readme_world (Some 2%positive) "partSize"
  = Some (VNum 20971520)
  ∧ caller_field readme_world (Some 2%positive) "queueSize"
    = Some (VNum 20)
  ∧ last_upload w' = Some (VObj 1%positive, VObj 2%positive, UploadCallback)
  ∧ field w' (VObj 2%positive) "partSize" = Some (VNum 10485760)
  ∧ field w' (VObj 2%positive) "queueSize" = Some (VNum 10).
Proof. vm_compute. repeat split. Qed.

(** The same for every call: whatever the caller's transfer options hold,
    the forwarded options hold the two defaults. *)
Lemma forwarded_options_hold_defaults stream b t c w :
  let w' := exec (uploadStreamToCOS stream b t c) w in
  ∃ params options,
    last_upload w' = Some (params, VObj options, UploadCallback)
    ∧ field w' (VObj options) "partSize" = Some (VNum 10485760)
    ∧ field w' (VObj options) "queueSize" = Some (VNum 10).
Proof.
  simpl. eexists _, _. split; [apply uploadStreamToCOS_last_upload|].
  apply options_hold_defaults.
Qed.

(** C2, as the specification states it, fails: after
    [uploadStreamToCOS(stream, {Bucket: 'b', Key: 'k'})] the caller's bucket
    options hold a third property, Body. *)
Lemma C2_counterexample_bucket_options_gets_Body :
  ¬ options_not_mutated (Readable 0) (Some 1%positive) None (VBool false)
      scenario_world.
Proof.
  intros [Hb _]. specialize (Hb 1%positive eq_refl).
  apply (f_equal (fun o => o ≫= (.!! "Body"))) in Hb.
  vm_compute in Hb. discriminate.
Qed.

(** C2 (amended).  The caller's bucket_options object is the params object
    handed to the storage client: after the call its property Body holds the
    upload stream and every other property holds the value it held before,
    none being added.  Every property of the caller's transfer_options
    object other than partSize and queueSize holds the value it held before
    the call, and no property other than these two is added.  (The two
    objects are distinct.) *)
Theorem C2_options_written_in_place stream b t c w :
  let w' := exec (uploadStreamToCOS stream b t c) w in
  (∀ bl, b = Some bl →
     ∃ options, last_upload w' = Some (VObj bl, options, UploadCallback)
                ∧ field w' (VObj bl) "Body"
                  = Some (readStream_of stream c w))
  ∧ (∀ bl ob, b = Some bl → heap w !! bl = Some ob → t ≠ Some bl →
       heap w' !! bl = Some (<["Body" := readStream_of stream c w]> ob))
  ∧ (∀ tl ot, t = Some tl → heap w !! tl = Some ot → b ≠ Some tl →
       ∃ ot', heap w' !! tl = Some ot'
              ∧ ∀ k, k ≠ "partSize" → k ≠ "queueSize" → ot' !! k = ot !! k).
Proof.
  cbv zeta. split; [|split].
  - intros bl ->. eexists. split.
    + apply (uploadStreamToCOS_last_upload stream (Some bl) t c w).
    + apply (params_hold_Body stream (Some bl) t c w).
  - intros bl ob -> Hob Hne.
    pose proof (heap_97_params stream (Some bl) c w) as H97.
    unfold params_97 in H97. simpl in H97. rewrite Hob in H97. simpl in H97.
    rewrite uploadStreamToCOS_heap. unfold heap_98.
    rewrite extend_heap_other; [done|].
    destruct t as [tl|]; simpl; [congruence|].
    intros Heq. pose proof (fresh_lookup (heap_97 stream (Some bl) c w)) as Hf.
    rewrite <- Heq in Hf. congruence.
  - intros tl ot -> Hot Hne.
    rewrite uploadStreamToCOS_heap. unfold heap_98.
    pose proof (extend_heap_defaults (Some tl)
                  (heap_97 stream b c w)) as H98.
    simpl in H98. rewrite H98. eexists. split; [done|].
    intros k HP HQ. rewrite !lookup_insert_ne by done.
    unfold heap_97. rewrite extend_heap_other; [by rewrite Hot|].
    destruct b as [bl|]; simpl; [congruence|].
    intros Heq. pose proof (fresh_lookup (heap w)) as Hf.
    rewrite <- Heq in Hf. congruence.
Qed.

Lemma C2_options_written_in_place_witness :
  (∃ options,
     last_upload (exec (uploadStreamToCOS (Readable 0) (Some 1%positive)
                          (Some 2%positive) (VBool false)) readme_world)
     = Some (VObj 1%positive, options, UploadCallback)
     ∧ field (exec (uploadStreamToCOS (Readable 0) (Some 1%positive)
                      (Some 2%positive) (VBool false)) readme_world)
         (VObj 1%positive) "Body"
       = Some (VStream (Readable 0)))
  ∧ heap (exec (uploadStreamToCOS (Readable 0) (Some 1%positive)
                  (Some 2%positive) (VBool false)) readme_world) !! 1%positive
    = Some (<["Body" := VStream (Readable 0)]> readme_bucket_options)
  ∧ ∃ ot', heap (exec (uploadStreamToCOS (Readable 0) (Some 1%positive)
                         (Some 2%positive) (VBool false)) readme_world)
             !! 2%positive = Some ot'
           ∧ ∀ k, k ≠ "partSize" → k ≠ "queueSize" →
                  ot' !! k = readme_transfer_options !! k.
Proof.
  destruct (C2_options_written_in_place (Readable 0) (Some 1%positive)
              (Some 2%positive) (VBool false) readme_world) as (Hp & Hb & Ht).
  split; [|split].
  - apply (Hp 1%positive). reflexivity.
  - apply (Hb 1%positive); [reflexivity | reflexivity | discriminate].
  - apply (Ht 2%positive); [reflexivity | reflexivity | discriminate].
Defined.

(** C3.  The completion callback that [uploadStreamToCOS] hands to the
    storage client emits exactly one signal when it runs: upload_error when
    its error argument is not null ([err != null], under which [undefined]
    counts as null), upload_finish otherwise; never both, never neither. *)
Theorem C3_callback_emits_exactly_one stream b t c w :
  ∃ params options cb,
    last_upload (exec (uploadStreamToCOS stream b t c) w)
    = Some (params, options, cb)
    ∧ ∀ err data w2,
        let sigs := emitted (run_callback cb err data) w2 in
        length sigs = 1
        ∧ fired "upload_error" sigs + fired "upload_finish" sigs = 1
        ∧ fired "upload_error" sigs = (if loose_neq_null err then 1 else 0)
        ∧ fired "upload_finish" sigs = (if loose_neq_null err then 0 else 1).
Proof.
  eexists _, _, _. split; [apply uploadStreamToCOS_last_upload|].
  intros err data w2. simpl.
  pose proof (upload_callback_spec err data w2) as Hcb.
  destruct (loose_neq_null err);
    rewrite (emitted_log_Emit _ _ _ _ Hcb); by vm_compute.
Qed.

(** C4.  With compress = true, [uploadStreamToCOS] creates a gzip transform,
    pipes the source stream into it and hands the transform to the storage
    client as Body; with compress = false it creates nothing and hands over
    the source stream itself. *)
Theorem C4_gzip_interposed_when_compress stream b t w :
  (let w' := exec (uploadStreamToCOS stream b t (VBool true)) w in
   ∃ g params options cb,
     trace w' = trace w ++ [CreateGzip g; Pipe stream (VStream g);
                            Upload (VObj params) options cb]
     ∧ field w' (VObj params) "Body" = Some (VStream g))
  ∧ (let w' := exec (uploadStreamToCOS stream b t (VBool false)) w in
     ∃ params options cb,
       trace w' = trace w ++ [Upload (VObj params) options cb]
       ∧ field w' (VObj params) "Body" = Some (VStream stream)).
Proof.
  cbv zeta. split.
  - exists (Gzip (gzips w)), (params_97 b w),
      (VObj (options_98 stream b t (VBool true) w)), UploadCallback.
    split; [by rewrite uploadStreamToCOS_trace|].
    by rewrite params_hold_Body.
  - exists (params_97 b w),
      (VObj (options_98 stream b t (VBool false) w)), UploadCallback.
    split; [by rewrite uploadStreamToCOS_trace|].
    by rewrite params_hold_Body.
Qed.



(** C6.  When the caller's transfer options hold neither partSize nor
    queueSize (or are not given), the options forwarded to the managed
    upload hold partSize = 10 * 1024 * 1024 and queueSize = 10; their other
    properties are the caller's, so they are the merge the specification
    describes. *)
Theorem C6_defaults_without_overrides stream b t c w :
  no_overrides w t →
  let w' := exec (uploadStreamToCOS stream b t c) w in
  ∃ params options,
    last_upload w' = Some (params, VObj options, UploadCallback)
    ∧ field w' (VObj options) "partSize" = Some (VNum (10 * 1024 * 1024))
    ∧ field w' (VObj options) "queueSize" = Some (VNum 10)
    ∧ ∀ k, k ≠ "Body" → field w' (VObj options) k = spec_merge w t k.
Proof.
  intros [HP HQ]. cbv zeta.
  exists (VObj (params_97 b w)), (options_98 stream b t c w).
  split; [apply uploadStreamToCOS_last_upload|].
  destruct (options_hold_defaults stream b t c w) as [HdP HdQ].
  split; [done|]. split; [done|].
  intros k HB. unfold spec_merge.
  destruct (decide (k = "partSize")) as [->|HkP]; [by rewrite HP, HdP|].
  destruct (decide (k = "queueSize")) as [->|HkQ]; [by rewrite HQ, HdQ|].
  rewrite other_fields_kept by done.
  assert (field w (VObj (options_98 stream b t c w)) k = caller_field w t k)
    as ->.
  { destruct t as [tl|]; [done|]. unfold options_98. simpl extend_target.
    rewrite field_lookup, <- (heap_97_keeps stream b c w) by done.
    by rewrite fresh_lookup. }
  destruct (caller_field w t k); [done|].
  unfold defaults. simpl. by rewrite !lookup_insert_ne.
Qed.

Lemma C6_defaults_without_overrides_witness :
  no_overrides scenario_world None
  ∧ ∃ params options,
      last_upload (exec (uploadStreamToCOS (Readable 0) (Some 1%positive)
                           None VUndefined) scenario_world)
      = Some (params, VObj options, UploadCallback)
      ∧ field (exec (uploadStreamToCOS (Readable 0) (Some 1%positive) None
                       VUndefined) scenario_world) (VObj options) "partSize"
        = Some (VNum (10 * 1024 * 1024))
      ∧ field (exec (uploadStreamToCOS (Readable 0) (Some 1%positive) None
                       VUndefined) scenario_world) (VObj options) "queueSize"
        = Some (VNum 10)
      ∧ ∀ k, k ≠ "Body" →
             field (exec (uploadStreamToCOS (Readable 0) (Some 1%positive)
                            None VUndefined) scenario_world) (VObj options) k
             = spec_merge scenario_world None k.
Proof.
  split; [split; reflexivity|].
  apply (C6_defaults_without_overrides (Readable 0) (Some 1%positive) None
           VUndefined scenario_world).
  split; reflexivity.
Defined.

(** C7.  Once [execCommandAndSendToCOS] has run, and whatever lifecycle
    events the child has delivered since, an 'exit' event of the child fires
    command_exit with the status code of the event as payload, and an
    'error' event of the child fires command_init_error with the error
    object of the event as payload.  (When [spawn] refused the arguments
    there is no child, and nothing is fired.) *)
Theorem C7_lifecycle_payloads command args b t c w evs code signal err :
  let child := child_56 w in
  let w' := exec (deliver_all child evs)
              (exec (execCommandAndSendToCOS command args b t c) w) in
  emitted (deliver child (Exited code signal)) w'
  = (if spawn_accepts command args then [("command_exit", code)] else [])
  ∧ emitted (deliver child (Failed err)) w'
    = (if spawn_accepts command args then [("command_init_error", err)]
       else []).
Proof.
  cbv zeta. destruct (spawn_accepts command args) eqn:Hok.
  - pose proof (execCommandAndSendToCOS_children command args b t c w Hok)
      as Hls.
    rewrite deliver_all_spec by done.
    split; by rewrite emitted_deliver.
  - pose proof (execCommandAndSendToCOS_no_child command args b t c w Hok)
      as Hno.
    rewrite deliver_all_no_child by done.
    split; by apply emitted_no_child.
Qed.

(** C8.  When the completion callback runs, the signal it emits carries the
    very value it was given: the error argument for upload_error, the data
    argument for upload_finish.  The callback writes to no object, so the
    properties of the error and of the result (Location, ETag, Bucket, Key)
    are those the storage client set. *)
Theorem C8_payloads_passed_unmodified stream b t c w :
  ∃ params options cb,
    last_upload (exec (uploadStreamToCOS stream b t c) w)
    = Some (params, options, cb)
    ∧ ∀ err data w2,
        emitted (run_callback cb err data) w2
        = [if loose_neq_null err then ("upload_error", err)
           else ("upload_finish", data)]
        ∧ heap (exec (run_callback cb err data) w2) = heap w2.
Proof.
  eexists _, _, _. split; [apply uploadStreamToCOS_last_upload|].
  intros err data w2. simpl.
  pose proof (upload_callback_spec err data w2) as Hcb.
  rewrite Hcb. split; [|done].
  destruct (loose_neq_null err); by rewrite (emitted_log_Emit _ _ _ _ Hcb).
Qed.

(** C9, as the specification states it, fails: while the child process
    runs, and for good if it never terminates, it delivers no lifecycle
    event, and neither command_exit nor command_init_error fires. *)
Lemma C9_counterexample_running_child_fires_nothing :
  ¬ exactly_one_lifecycle_signal "cat" [] (Some 1%positive) None VUndefined
      scenario_world [].
Proof. unfold exactly_one_lifecycle_signal. vm_compute. discriminate. Qed.

(** C9 (amended).  command_exit fires once for each 'exit' event the child
    process delivers and command_init_error once for each 'error' event,
    and neither fires otherwise: the lifecycle signals fired are the
    lifecycle events delivered, one for one and in order.  (When [spawn]
    refused the arguments there is no child, and nothing is fired.) *)
Theorem C9_one_signal_per_lifecycle_event command args b t c w evs :
  let sigs := emitted (deliver_all (child_56 w) evs)
                (exec (execCommandAndSendToCOS command args b t c) w) in
  sigs = (if spawn_accepts command args then map forwarded evs else [])
  ∧ lifecycle_signals sigs
    = (if spawn_accepts command args then length evs else 0).
Proof.
  cbv zeta. destruct (spawn_accepts command args) eqn:Hok.
  - rewrite emitted_deliver_all
      by by apply execCommandAndSendToCOS_children.
    split; [done|]. apply lifecycle_signals_forwarded.
  - rewrite emitted_deliver_all_no_child
      by by apply execCommandAndSendToCOS_no_child.
    done.
Qed.

(** The listeners do not guard one another: if the runtime delivers an
    'error' and then an 'exit', both signals fire. *)
Example error_then_exit_fires_both :
  emitted (deliver_all (child_56 scenario_world)
             [Failed (VStr "EPIPE"); Exited (VNum 1) VNull])
    (exec (execCommandAndSendToCOS "cat" [] (Some 1%positive) None VUndefined)
       scenario_world)
  = [("command_init_error", VStr "EPIPE"); ("command_exit", VNum 1)].
Proof. by vm_compute. Qed.



End Claims.

(** * Further properties of the two methods *)

Section Frame.

Implicit Types (stream : stream) (b t : option loc) (c : value) (w : world).

Lemma upload_calls_uploadStreamToCOS stream b t c w :
  upload_calls (exec (uploadStreamToCOS stream b t c) w)
  = upload_calls w
    ++ [(VObj (params_97 b w), VObj (options_98 stream b t c w),
         UploadCallback)].
Proof.
  unfold upload_calls. rewrite uploadStreamToCOS_trace, !omap_app.
  unfold gzip_calls.
  by destruct (truthy (default_param c (VBool false))).
Qed.

(** An object of the heap is not the new object [extend] creates. *)
Lemma extend_target_None_ne (h : gmap loc (gmap string value)) l :
  is_Some (h !! l) → l ≠ extend_target None h.
Proof.
  intros [o Ho] ->. simpl in Ho. by rewrite fresh_lookup in Ho.
Qed.

Lemma extend_target_ne target (h : gmap loc (gmap string value)) l :
  is_Some (h !! l) → target ≠ Some l → l ≠ extend_target target h.
Proof.
  intros Hl Hne. destruct target as [tl|].
  - simpl. congruence.
  - by apply extend_target_None_ne.
Qed.

(** X1.  The upload writes to the two option objects only: every other object
    of the heap is after the call what it was before, for
    [uploadStreamToCOS] and for [execCommandAndSendToCOS]. *)
Theorem upload_leaves_other_objects stream command args b t c w l o :
  heap w !! l = Some o → b ≠ Some l → t ≠ Some l →
  heap (exec (uploadStreamToCOS stream b t c) w) !! l = Some o
  ∧ heap (exec (execCommandAndSendToCOS command args b t c) w) !! l = Some o.
Proof.
  intros Ho Hb Ht.
  assert (∀ s w0, heap w0 = heap w →
            heap (exec (uploadStreamToCOS s b t c) w0) !! l = Some o) as H.
  { intros s w0 Hw0. rewrite uploadStreamToCOS_heap. unfold heap_98, heap_97.
    assert (extend_heap b [("Body", readStream_of s c w0)] (heap w0) !! l
            = Some o) as H97.
    { rewrite extend_heap_other; [by rewrite Hw0|].
      apply extend_target_ne; [rewrite Hw0; eauto | done]. }
    rewrite extend_heap_other; [done|].
    apply extend_target_ne; [eauto | done]. }
  split; [by apply H|].
  destruct (spawn_accepts command args) eqn:Hok.
  - rewrite execCommandAndSendToCOS_spec by done. by apply H.
  - unfold exec. by rewrite execCommandAndSendToCOS_refused.
Qed.

Lemma upload_leaves_other_objects_witness :
  heap (exec (uploadStreamToCOS (Readable 0) (Some 1%positive) None
                (VBool true)) readme_world) !! 2%positive
  = Some readme_transfer_options
  ∧ heap (exec (execCommandAndSendToCOS "pg_dump" ["-F"; "custom"]
                  (Some 1%positive) None (VBool true)) readme_world)
      !! 2%positive
    = Some readme_transfer_options.
Proof.
  apply (upload_leaves_other_objects (Readable 0) "pg_dump" ["-F"; "custom"]
           (Some 1%positive) None (VBool true) readme_world 2%positive);
    [reflexivity | discriminate | discriminate].
Defined.

(** X2.  One object given as both option arguments is both [params] and
    [options]: the storage client receives it twice, holding Body and the
    two defaults on top of what it held. *)
Theorem same_object_for_both_options stream l c w :
  let w' := exec (uploadStreamToCOS stream (Some l) (Some l) c) w in
  last_upload w' = Some (VObj l, VObj l, UploadCallback)
  ∧ heap w' !! l
    = Some (<["queueSize" := VNum 10]>
              (<["partSize" := VNum (10 * 1024 * 1024)]>
                 (<["Body" := readStream_of stream c w]>
                    (default ∅ (heap w !! l))))).
Proof.
  cbv zeta. split; [apply uploadStreamToCOS_last_upload|].
  rewrite uploadStreamToCOS_heap. unfold heap_98.
  pose proof (extend_heap_defaults (Some l) (heap_97 stream (Some l) c w))
    as H98.
  pose proof (heap_97_params stream (Some l) c w) as H97.
  unfold params_97 in H97. simpl in H97, H98. by rewrite H98, H97.
Qed.

(** X3.  With neither option object given, the call creates two new objects,
    [{Body: readStream}] and [{partSize: 10485760, queueSize: 10}], hands
    them to the storage client, and writes to no object that existed. *)
Theorem no_option_objects_given stream c w :
  let w' := exec (uploadStreamToCOS stream None None c) w in
  ∃ p o,
    last_upload w' = Some (VObj p, VObj o, UploadCallback)
    ∧ p ≠ o ∧ heap w !! p = None ∧ heap w !! o = None
    ∧ heap w'
      = <[o := defaults_object]>
          (<[p := {["Body" := readStream_of stream c w]}]> (heap w)).
Proof.
  cbv zeta.
  exists (params_97 None w), (options_98 stream None None c w).
  split; [apply uploadStreamToCOS_last_upload|].
  destruct (readStream_is_stream stream c w) as [s Hs].
  assert (heap_97 stream None c w
          = <[params_97 None w := {["Body" := readStream_of stream c w]}]>
              (heap w)) as H97.
  { unfold heap_97, params_97, extend_heap. simpl. rewrite Hs. simpl.
    unfold setProperty. rewrite lookup_insert_eq. simpl.
    by rewrite insert_insert_eq. }
  assert (heap_97 stream None c w !! options_98 stream None None c w = None)
    as Hfresh by apply fresh_lookup.
  split.
  { intros Heq. rewrite H97, <- Heq, lookup_insert_eq in Hfresh.
    discriminate. }
  split; [apply fresh_lookup|].
  split.
  { rewrite H97 in Hfresh. apply lookup_insert_None in Hfresh. tauto. }
  rewrite uploadStreamToCOS_heap. unfold heap_98. rewrite <- H97.
  unfold extend_heap, options_98, defaults. simpl.
  unfold setProperty. rewrite !lookup_insert_eq. simpl.
  by rewrite !insert_insert_eq.
Qed.

End Frame.

Section Reuse.

Implicit Types (stream : stream) (b t : option loc) (c : value) (w : world).

Lemma exec_seq {A B} (m1 : M A) (m2 : M B) w :
  exec (m1 ;;; m2) w = exec m2 (exec m1 w).
Proof. unfold exec, bind. by destruct (m1 w). Qed.

(** X4.  Two uploads given the same bucket_options object hand the storage client
    the same params object.  The second call writes its own stream to Body:
    the params of the first upload then hold the stream of the second. *)
Theorem reused_bucket_options_share_params s1 s2 bl t1 t2 c1 c2 w :
  let w1 := exec (uploadStreamToCOS s1 (Some bl) t1 c1) w in
  let w2 := exec (uploadStreamToCOS s2 (Some bl) t2 c2) w1 in
  ∃ o1 o2,
    upload_calls w2
    = upload_calls w ++ [(VObj bl, o1, UploadCallback);
                         (VObj bl, o2, UploadCallback)]
    ∧ field w1 (VObj bl) "Body" = Some (readStream_of s1 c1 w)
    ∧ field w2 (VObj bl) "Body" = Some (readStream_of s2 c2 w1).
Proof.
  cbv zeta. eexists _, _. split; [|split].
  - rewrite !upload_calls_uploadStreamToCOS, <- app_assoc. reflexivity.
  - apply (params_hold_Body s1 (Some bl) t1 c1 w).
  - apply (params_hold_Body s2 (Some bl) t2 c2).
Qed.

(** X5.  Every compressed upload creates a gzip transform of its own: two
    successive compressed uploads set up two pipes, each from the stream of
    its call into a different transform, and each transform is the Body of
    its call. *)
Theorem compressed_uploads_get_their_own_gzip s1 s2 b1 b2 t1 t2 w :
  let m1 := uploadStreamToCOS s1 b1 t1 (VBool true) in
  let m2 := uploadStreamToCOS s2 b2 t2 (VBool true) in
  ∃ g1 g2,
    g1 ≠ g2
    ∧ pipes (calls (m1 ;;; m2) w) = [(s1, VStream g1); (s2, VStream g2)]
    ∧ readStream_of s1 (VBool true) w = VStream g1
    ∧ readStream_of s2 (VBool true) (exec m1 w) = VStream g2.
Proof.
  cbv zeta. exists (Gzip (gzips w)), (Gzip (S (gzips w))).
  assert (gzips (exec (uploadStreamToCOS s1 b1 t1 (VBool true)) w)
          = S (gzips w)) as Hg.
  { by rewrite uploadStreamToCOS_spec. }
  split; [intros [= H]; lia|].
  split; [|split; [done|unfold readStream_of; simpl; by rewrite Hg]].
  unfold calls. rewrite exec_seq.
  rewrite (uploadStreamToCOS_trace s2), (uploadStreamToCOS_trace s1).
  unfold gzip_calls. simpl. rewrite Hg.
  by rewrite <- !app_assoc, drop_app_length.
Qed.

(** X6.  The methods look at [compressed] through its truthiness only: a
    call given any value is the call given the boolean JavaScript reads in
    that value, once the default of the parameter is taken. *)
Theorem compressed_read_by_truthiness stream command args b t c :
  uploadStreamToCOS stream b t c
  = uploadStreamToCOS stream b t (VBool (compresses c))
  ∧ execCommandAndSendToCOS command args b t c
    = execCommandAndSendToCOS command args b t (VBool (compresses c)).
Proof. split; by destruct c. Qed.

End Reuse.

Section Forwarding.

Implicit Types (stream : stream) (b t : option loc) (c : value) (w : world).

(** X7.  Whatever the caller's objects hold under names other than Body,
    partSize and queueSize reaches the storage client as it is: Bucket, Key
    and the like in [params], further tuning in [options]; a property the
    caller did not give is absent. *)
Theorem other_properties_pass_through stream b t c w k :
  k ≠ "Body" → k ≠ "partSize" → k ≠ "queueSize" →
  let w' := exec (uploadStreamToCOS stream b t c) w in
  ∃ params options,
    last_upload w' = Some (VObj params, VObj options, UploadCallback)
    ∧ field w' (VObj params) k = caller_field w b k
    ∧ field w' (VObj options) k = caller_field w t k.
Proof.
  intros HB HP HQ. cbv zeta.
  exists (params_97 b w), (options_98 stream b t c w).
  split; [apply uploadStreamToCOS_last_upload|].
  rewrite !other_fields_kept by done. split.
  - destruct b as [bl|]; [done|]. unfold params_97. simpl extend_target.
    by rewrite field_lookup, fresh_lookup.
  - destruct t as [tl|]; [done|]. unfold options_98. simpl extend_target.
    rewrite field_lookup, <- (heap_97_keeps stream b c w) by done.
    by rewrite fresh_lookup.
Qed.

Lemma other_properties_pass_through_witness :
  ∃ params options,
    last_upload (exec (uploadStreamToCOS (Readable 0) (Some 1%positive)
                         (Some 2%positive) (VBool true)) readme_world)
    = Some (VObj params, VObj options, UploadCallback)
    ∧ field (exec (uploadStreamToCOS (Readable 0) (Some 1%positive)
                     (Some 2%positive) (VBool true)) readme_world)
        (VObj params) "Bucket"
      = caller_field readme_world (Some 1%positive) "Bucket"
    ∧ field (exec (uploadStreamToCOS (Readable 0) (Some 1%positive)
                     (Some 2%positive) (VBool true)) readme_world)
        (VObj options) "Bucket"
      = caller_field readme_world (Some 2%positive) "Bucket".
Proof.
  apply (other_properties_pass_through (Readable 0) (Some 1%positive)
           (Some 2%positive) (VBool true) readme_world "Bucket");
    discriminate.
Defined.

(** X8.  [uploadStreamToCOS] makes one call to the storage client, whatever
    [compressed] is, emits no signal before it returns and touches the
    listeners of no child process. *)
Theorem upload_only_calls_the_storage_client_once stream b t c w :
  let w' := exec (uploadStreamToCOS stream b t c) w in
  length (upload_calls w') = S (length (upload_calls w))
  ∧ signals w' = signals w
  ∧ children w' = children w.
Proof.
  cbv zeta. rewrite upload_calls_uploadStreamToCOS, length_app. simpl.
  split; [lia|]. split.
  - apply uploadStreamToCOS_signals.
  - apply uploadStreamToCOS_children.
Qed.




(** X10.  The child is listened to for 'exit' and 'error' only: any other event
    it emits ('close', 'spawn', 'disconnect', ...) fires no signal and
    changes nothing. *)
Theorem other_child_events_not_forwarded command args b t c w event evargs :
  event ≠ "exit" → event ≠ "error" →
  let w' := exec (execCommandAndSendToCOS command args b t c) w in
  exec (child_emit (child_56 w) event evargs) w' = w'.
Proof.
  intros Hexit Herror. cbv zeta.
  unfold exec at 1, child_emit.
  destruct (spawn_accepts command args) eqn:Hok.
  - rewrite execCommandAndSendToCOS_children by done.
    apply not_eq_sym, String.eqb_neq in Hexit, Herror.
    cbn [default from_option id run_listeners]. unfold bind.
    by rewrite Hexit, Herror.
  - by rewrite execCommandAndSendToCOS_no_child.
Qed.

Lemma other_child_events_not_forwarded_witness :
  exec (child_emit (child_56 scenario_world) "close" [VNum 0; VNull])
    (exec (execCommandAndSendToCOS "echo" ["hello"] (Some 1%positive) None
             (VBool false)) scenario_world)
  = exec (execCommandAndSendToCOS "echo" ["hello"] (Some 1%positive) None
            (VBool false)) scenario_world.
Proof.
  apply (other_child_events_not_forwarded "echo" ["hello"] (Some 1%positive)
           None (VBool false) scenario_world "close" [VNum 0; VNull]);
    discriminate.
Defined.

Lemma happen_spec child x w :
  children w !! child
  = Some [("exit", ExitListener); ("error", ErrorListener)] →
  exec (happen child x) w = log (Emit (signal_of x).1 (signal_of x).2) w.
Proof.
  intros H. destruct x as [ev|err data]; simpl.
  - by apply deliver_spec.
  - rewrite upload_callback_spec. by destruct (loose_neq_null err).
Qed.

Lemma happen_all_spec child xs :
  ∀ w,
  children w !! child
  = Some [("exit", ExitListener); ("error", ErrorListener)] →
  exec (happen_all child xs) w
  = World (heap w) (children w) (gzips w)
      (trace w ++ map (fun x => Emit (signal_of x).1 (signal_of x).2) xs).
Proof.
  induction xs as [|x xs IH]; intros w H.
  - unfold exec. simpl. rewrite app_nil_r. by destruct w.
  - simpl happen_all. rewrite exec_seq, happen_spec by done.
    rewrite IH by done. simpl. by rewrite <- app_assoc.
Qed.

Lemma happen_no_child child x w :
  children w !! child = None →
  exec (happen child x) w
  = (if is_completion x then log (Emit (signal_of x).1 (signal_of x).2) w
     else w).
Proof.
  intros H. destruct x as [ev|err data]; simpl.
  - by apply deliver_no_child.
  - rewrite upload_callback_spec. by destruct (loose_neq_null err).
Qed.

Lemma happen_all_no_child child xs :
  ∀ w,
  children w !! child = None →
  exec (happen_all child xs) w
  = World (heap w) (children w) (gzips w)
      (trace w ++ map (fun x => Emit (signal_of x).1 (signal_of x).2)
                    (List.filter is_completion xs)).
Proof.
  induction xs as [|x xs IH]; intros w H.
  - unfold exec. simpl. rewrite app_nil_r. by destruct w.
  - simpl happen_all. rewrite exec_seq, happen_no_child by done.
    simpl List.filter. destruct (is_completion x).
    + rewrite IH by done. simpl. by rewrite <- app_assoc.
    + by rewrite IH.
Qed.

Lemma signals_of_Emits w w' xs :
  trace w' = trace w ++ map (fun x => Emit (signal_of x).1 (signal_of x).2) xs →
  signals w' = signals w ++ map signal_of xs.
Proof.
  intros H. erewrite signals_app by exact H. f_equal. clear H.
  induction xs as [|x xs IH]; [done|].
  simpl. f_equal; [by destruct (signal_of x) | exact IH].
Qed.

Lemma upload_calls_of_Emits w w' xs :
  trace w' = trace w ++ map (fun x => Emit (signal_of x).1 (signal_of x).2) xs →
  upload_calls w' = upload_calls w.
Proof.
  intros H. unfold upload_calls. rewrite H, omap_app.
  rewrite <- (app_nil_r (omap _ (trace w))) at 2. f_equal. clear H.
  induction xs as [|x xs IH]; [done|]. exact IH.
Qed.

(** X11.  After a call of [execCommandAndSendToCOS], the lifecycle events of
    the child and the completions of the upload may come in any order and
    any number: each is answered by one signal, in the order they come, and
    the heap, the listeners and the calls made to the collaborators stay as
    the call left them.  (When [spawn] refused the arguments there is no
    child to deliver an event, and only a completion is answered.) *)
Theorem signals_follow_happenings command args b t c w xs :
  let w' := exec (execCommandAndSendToCOS command args b t c) w in
  let w'' := exec (happen_all (child_56 w) xs) w' in
  emitted (happen_all (child_56 w) xs) w'
  = map signal_of (if spawn_accepts command args then xs
                   else List.filter is_completion xs)
  ∧ heap w'' = heap w'
  ∧ children w'' = children w'
  ∧ upload_calls w'' = upload_calls w'.
Proof.
  cbv zeta. destruct (spawn_accepts command args) eqn:Hok.
  - pose proof (execCommandAndSendToCOS_children command args b t c w Hok)
      as Hls.
    split; [|rewrite happen_all_spec by done; split; [done|split; [done|]]].
    + apply emitted_app, signals_of_Emits. by rewrite happen_all_spec.
    + by eapply upload_calls_of_Emits.
  - pose proof (execCommandAndSendToCOS_no_child command args b t c w Hok)
      as Hno.
    split; [|rewrite happen_all_no_child by done;
             split; [done|split; [done|]]].
    + apply emitted_app, signals_of_Emits. by rewrite happen_all_no_child.
    + by eapply upload_calls_of_Emits.
Qed.

(** X12.  With the empty string as command, [spawn] throws before a child
    exists: the promise of [execCommandAndSendToCOS] is rejected and nothing
    else happens.  No listener is registered, no upload is issued, the
    option objects are not written to and no signal is emitted,
    command_init_error included. *)
Theorem empty_command_is_rejected args b t c w :
  ∃ reason,
    execCommandAndSendToCOS "" args b t c w = (Rejected reason, w).
Proof.
  eexists. by apply execCommandAndSendToCOS_refused.
Qed.

End Forwarding.
